(** * Movie REST resource: a shallow embedding of [src/main.py]

    The service keeps one table of movies and answers GET, PUT, PATCH and
    DELETE on [/movie/<int:movie_id>].  The table is a list of rows in
    insertion order; a handler is a computation in a small state-and-abort
    monad over that table, written statement by statement after the Python
    method it embeds.

    Values that Python holds as [str] or [None] are [option string]
    ([None] is Python's [None]).

    What a request carries for the parsers is its decoded JSON object and
    its query-string and form values: the parsers of [main.py] name no
    [location], so an argument is taken from the JSON object first and from
    the query string and form after it.  A member of the JSON object is the
    text that [type=str] makes of its value, or [None] for a JSON [null].
    Requests whose body does not decode to a JSON object are not part of
    the model.

    The [imdb_rating] column is declared [db.Integer] and shown with
    [fields.Integer], while both parsers read it with [type=str].  What the
    column makes of a text and what the formatter makes of a stored value
    are kept abstract (class [Storage]): every theorem holds whatever these
    two functions are. *)

From Stdlib Require Import ZArith List String Ascii Bool Lia.
Import ListNotations.

Local Open Scope string_scope.
Local Open Scope list_scope.
Local Open Scope Z_scope.

(** ** Python values *)

(** A parsed argument: a [str], or [None]. *)
Definition value : Type := option string.

(** Truth value of [if v:] for a [str] or [None]. *)
Definition truthy (v : value) : bool :=
  match v with
  | None => false
  | Some s => negb (String.eqb s "")
  end.

(** Equality used by [filter_by(col=v)]: a [None] is compared with
    [IS NULL], a string with [=]. *)
Definition value_eqb (a b : value) : bool :=
  match a, b with
  | None, None => true
  | Some x, Some y => String.eqb x y
  | _, _ => false
  end.

Definition is_some {A} (o : option A) : bool :=
  match o with Some _ => true | None => false end.

(** ** The integer column and its formatter *)

(** [cell] is what a [db.Integer] column holds; [db_Integer] is what the
    column stores for a text bound to it; [fields_Integer] is the
    formatter's [int(value)], [None] when it raises. *)
Class Storage : Type := Build_Storage
  { cell : Type;
    db_Integer : string -> cell;
    fields_Integer : cell -> option Z }.

(** ** The model: one row of the table (class [MovieModel]) *)

Module MovieModel.

Record t {S : Storage} : Type := Build
  { id : Z;
    name : value;
    imdb_rating : option cell;
    genre : value;
    actors : value;
    director : value }.

Arguments Build {S} id name imdb_rating genre actors director.

End MovieModel.

Definition table {S : Storage} : Type := list MovieModel.t.

(** The column constraints declared on [MovieModel]: [primary_key=True] on
    [id], [unique=True] on [name], [nullable=False] on the five others. *)
Definition non_null {S : Storage} (r : MovieModel.t) : Prop :=
  MovieModel.name r <> None /\
  MovieModel.imdb_rating r <> None /\
  MovieModel.genre r <> None /\
  MovieModel.actors r <> None /\
  MovieModel.director r <> None.

Record constraints {S : Storage} (db : table) : Prop := Constraints
  { primary_key : NoDup (map MovieModel.id db);
    unique_name : NoDup (map MovieModel.name db);
    nullable_false : Forall non_null db }.

(** A row that a [nullable=False] column refuses. *)
Definition null_column {S : Storage} (r : MovieModel.t) : bool :=
  negb (is_some (MovieModel.name r))
  || negb (is_some (MovieModel.imdb_rating r))
  || negb (is_some (MovieModel.genre r))
  || negb (is_some (MovieModel.actors r))
  || negb (is_some (MovieModel.director r)).

(** A text assigned to the [imdb_rating] attribute reaches the table through
    the column; the attribute is only read again after the commit, so the
    column's conversion is applied where the text is assigned. *)
Definition bind_Integer {S : Storage} (v : value) : option cell :=
  option_map db_Integer v.

(** ** Request parsers *)

(** One [add_argument] line. *)
Record Argument : Type := add_argument
  { arg_name : string;
    help : option string;
    required : bool }.

Definition movie_put_args : list Argument :=
  [ add_argument "name" (Some "Name of the movie is required") true;
    add_argument "imdb_rating" (Some "IMDB rating of the movie is required") true;
    add_argument "genre" (Some "Genre of the movie is required") true;
    add_argument "actors" (Some "Actors of the movie are required") true;
    add_argument "director" (Some "Director of the movie is required") true ].

Definition movie_update_args : list Argument :=
  [ add_argument "name" None false;
    add_argument "imdb_rating" None false;
    add_argument "genre" None false;
    add_argument "actors" None false;
    add_argument "director" None false ].

(** The decoded JSON object of a request ([None] is a JSON [null]), its
    query-string and form values, and the namespace a parser returns. *)
Definition object : Type := list (string * value).
Definition multidict : Type := list (string * string).
Definition namespace : Type := list (string * value).

Record sent : Type := Sent
  { json : object;
    values : multidict }.

Fixpoint json_get (key : string) (body : object) : option value :=
  match body with
  | [] => None
  | (k, v) :: rest => if String.eqb k key then Some v else json_get key rest
  end.

Fixpoint values_get (key : string) (vals : multidict) : option string :=
  match vals with
  | [] => None
  | (k, v) :: rest => if String.eqb k key then Some v else values_get key rest
  end.

(** The first value a parser finds for an argument: the member of the JSON
    object, else the query-string or form value; [None] when there is
    none.  A JSON [null] is found, as [Some None]. *)
Definition source (key : string) (d : sent) : option value :=
  match json_get key (json d) with
  | Some v => Some v
  | None => option_map Some (values_get key (values d))
  end.

(** [args[key]] *)
Fixpoint item (args : namespace) (key : string) : value :=
  match args with
  | [] => None
  | (k, v) :: rest => if String.eqb k key then v else item rest key
  end.

(** ** Responses *)

(** The message of a failed request: the text given to [abort], the
    per-field message of a parser, or the body of an uncaught exception,
    which the source does not determine. *)
Inductive message : Type :=
| Text (s : string)
| FieldError (field : string) (text : string)
| Unspecified.

(** What a handler body hands back to [marshal_with]: a row, a pair of a
    row and a status code, or (in [delete]) a bare integer. *)
Inductive retval {S : Storage} : Type :=
| Row (r : MovieModel.t)
| RowCode (r : MovieModel.t) (code : Z)
| Int (n : Z).

Inductive outcome (A : Type) : Type :=
| Return (a : A)
| Abort (code : Z) (msg : message).

Arguments Return {A} a.
Arguments Abort {A} code msg.

(** ** The handler monad: the table is threaded, [abort] cuts the rest *)

Definition handler {S : Storage} (A : Type) : Type := table -> outcome A * table.

Definition ret {S : Storage} {A} (a : A) : handler A := fun db => (Return a, db).

Definition bind {S : Storage} {A B} (m : handler A) (k : A -> handler B)
  : handler B :=
  fun db =>
    match m db with
    | (Return a, db') => k a db'
    | (Abort code msg, db') => (Abort code msg, db')
    end.

Definition abort {S : Storage} {A} (code : Z) (msg : message) : handler A :=
  fun db => (Abort code msg, db).

(** An exception that nothing catches: the request is answered 500. *)
Definition raise {S : Storage} {A} : handler A := abort 500 Unspecified.

Notation "x <- m ;; k" := (bind m (fun x => k))
  (at level 61, m at next level, right associativity).
Notation "m ;;; k" := (bind m (fun _ => k))
  (at level 61, right associativity).

(** The text sent for an argument that fails: its [help], when it has one. *)
Definition help_text (a : Argument) : string :=
  match help a with
  | Some h => h
  | None => "Missing required parameter in the JSON body"
  end.

(** [parser.parse_args()]: the arguments are read in declaration order;
    the first required one for which the request has no value aborts with
    400 and a message keyed by the argument's name. *)
Fixpoint parse_args {S : Storage} (parser : list Argument) (d : sent)
  : handler namespace :=
  match parser with
  | [] => ret []
  | a :: rest =>
      match source (arg_name a) d with
      | None =>
          if required a
          then abort 400 (FieldError (arg_name a) (help_text a))
          else (args <- parse_args rest d ;; ret ((arg_name a, None) :: args))
      | Some v =>
          args <- parse_args rest d ;; ret ((arg_name a, v) :: args)
      end
  end.

(** ** Queries and the session *)

Definition filter_by_id {S : Storage} (movie_id : Z) : handler (list MovieModel.t) :=
  fun db => (Return (filter (fun r => MovieModel.id r =? movie_id) db), db).

Definition filter_by_name {S : Storage} (v : value) : handler (list MovieModel.t) :=
  fun db => (Return (filter (fun r => value_eqb (MovieModel.name r) v) db), db).

Definition first {A} (rows : list A) : option A := hd_error rows.
Definition all {A} (rows : list A) : list A := rows.

(** [if rows:] on a list. *)
Definition nonempty {A} (rows : list A) : bool :=
  match rows with [] => false | _ :: _ => true end.

(** [db.session.add(movie); db.session.commit()] for a new object: a row
    with a null in a [nullable=False] column is refused by the commit,
    which raises and leaves the table as it was. *)
Definition session_insert {S : Storage} (movie : MovieModel.t) : handler unit :=
  fun db =>
    if null_column movie then raise db else (Return tt, db ++ [movie]).

(** [db.session.add(result); db.session.commit()] for a loaded object:
    the row with the object's primary key is written back. *)
Definition session_update {S : Storage} (result : MovieModel.t) : handler unit :=
  fun db =>
    (Return tt,
     map (fun r => if MovieModel.id r =? MovieModel.id result then result else r) db).

(** [db.session.delete(movie); db.session.commit()] *)
Definition session_delete {S : Storage} (movie : MovieModel.t) : handler unit :=
  fun db =>
    (Return tt,
     filter (fun r => negb (MovieModel.id r =? MovieModel.id movie)) db).

(** ** The resource (class [Movie]) *)

Definition not_found : message := Text "Couldn't find movie with given ID".

Module Movie.

Definition get {S : Storage} (movie_id : Z) : handler retval :=
  rows <- filter_by_id movie_id ;;
  let result := first rows in
  match result with
  | None => abort 404 not_found
  | Some r => ret (Row r)
  end.

Definition put {S : Storage} (movie_id : Z) (d : sent) : handler retval :=
  args <- parse_args movie_put_args d ;;
  id_rows <- filter_by_id movie_id ;;
  let id_result := first id_rows in
  name_rows <- filter_by_name (item args "name") ;;
  let name_result := all name_rows in
  (if is_some id_result then abort 409 (Text "Movie id already taken")
   else if nonempty name_result then abort 409 (Text "Movie name already taken")
   else ret tt) ;;;
  let movie :=
    MovieModel.Build movie_id
      (item args "name") (bind_Integer (item args "imdb_rating"))
      (item args "genre") (item args "actors") (item args "director") in
  session_insert movie ;;;
  ret (RowCode movie 201).

(** The five [if args[...]: result.... = args[...]] statements. *)
Definition assign {S : Storage} (args : namespace) (result : MovieModel.t)
  : MovieModel.t :=
  let result :=
    if truthy (item args "name")
    then MovieModel.Build (MovieModel.id result) (item args "name")
           (MovieModel.imdb_rating result) (MovieModel.genre result)
           (MovieModel.actors result) (MovieModel.director result)
    else result in
  let result :=
    if truthy (item args "imdb_rating")
    then MovieModel.Build (MovieModel.id result) (MovieModel.name result)
           (bind_Integer (item args "imdb_rating")) (MovieModel.genre result)
           (MovieModel.actors result) (MovieModel.director result)
    else result in
  let result :=
    if truthy (item args "genre")
    then MovieModel.Build (MovieModel.id result) (MovieModel.name result)
           (MovieModel.imdb_rating result) (item args "genre")
           (MovieModel.actors result) (MovieModel.director result)
    else result in
  let result :=
    if truthy (item args "actors")
    then MovieModel.Build (MovieModel.id result) (MovieModel.name result)
           (MovieModel.imdb_rating result) (MovieModel.genre result)
           (item args "actors") (MovieModel.director result)
    else result in
  if truthy (item args "director")
  then MovieModel.Build (MovieModel.id result) (MovieModel.name result)
         (MovieModel.imdb_rating result) (MovieModel.genre result)
         (MovieModel.actors result) (item args "director")
  else result.

Definition patch {S : Storage} (movie_id : Z) (d : sent) : handler retval :=
  args <- parse_args movie_update_args d ;;
  rows <- filter_by_id movie_id ;;
  let result := first rows in
  name_rows <- filter_by_name (item args "name") ;;
  let name_result := all name_rows in
  match result with
  | None => abort 404 not_found
  | Some result =>
      (if nonempty name_result
       then abort 409 (Text "Name of the movie already used")
       else ret tt) ;;;
      let result := assign args result in
      session_update result ;;;
      ret (Row result)
  end.

Definition delete {S : Storage} (movie_id : Z) : handler retval :=
  rows <- filter_by_id movie_id ;;
  let movie := first rows in
  match movie with
  | None => abort 404 not_found
  | Some movie =>
      session_delete movie ;;;
      ret (Int 200)
  end.

End Movie.

(** ** [marshal_with(resource_fields)] and the HTTP response *)

(** The six entries of [resource_fields]: [id] and [imdb_rating] go through
    [fields.Integer], the four others through [fields.String]. *)
Record resource_fields : Type := Fields
  { f_id : Z;
    f_name : value;
    f_imdb_rating : Z;
    f_genre : value;
    f_actors : value;
    f_director : value }.

(** [fields.Integer] on an attribute: its default 0 for [None], the
    formatter's integer otherwise, and no result when the formatter
    raises. *)
Definition output_Integer {S : Storage} (c : option cell) : option Z :=
  match c with
  | None => Some 0
  | Some x => fields_Integer x
  end.

(** The fields of a row, read after the commit; [None] when the formatter
    of [imdb_rating] raises. *)
Definition marshal {S : Storage} (r : MovieModel.t) : option resource_fields :=
  match output_Integer (MovieModel.imdb_rating r) with
  | Some n =>
      Some (Fields (MovieModel.id r) (MovieModel.name r) n
              (MovieModel.genre r) (MovieModel.actors r) (MovieModel.director r))
  | None => None
  end.

(** The fields of an object that has none of the six attributes (the
    integer that [delete] returns): every formatter gives its default. *)
Definition marshal_defaults : resource_fields := Fields 0 None 0 None None None.

Inductive payload : Type :=
| Body (f : resource_fields)
| Error (msg : message).

Record response : Type := Response { status : Z; data : payload }.

(** A returned pair carries its own status code; anything else is sent
    with the default 200; an [abort] is sent with its code and message.
    The fields are formatted after the handler body has run, so after its
    commit: when a formatter raises, the answer is 500 and the table is
    the one the handler left. *)
Definition marshal_with {S : Storage} (h : handler retval) (db : table)
  : response * table :=
  match h db with
  | (Return (Row r), db') =>
      match marshal r with
      | Some f => (Response 200 (Body f), db')
      | None => (Response 500 (Error Unspecified), db')
      end
  | (Return (RowCode r code), db') =>
      match marshal r with
      | Some f => (Response code (Body f), db')
      | None => (Response 500 (Error Unspecified), db')
      end
  | (Return (Int n), db') => (Response 200 (Body marshal_defaults), db')
  | (Abort code msg, db') => (Response code (Error msg), db')
  end.

(** ** Routing: [api.add_resource(Movie, "/movie/<int:movie_id>")] *)

Inductive request : Type :=
| GET (movie_id : Z)
| PUT (movie_id : Z) (d : sent)
| PATCH (movie_id : Z) (d : sent)
| DELETE (movie_id : Z).

Definition dispatch {S : Storage} (req : request) : table -> response * table :=
  match req with
  | GET movie_id => marshal_with (Movie.get movie_id)
  | PUT movie_id d => marshal_with (Movie.put movie_id d)
  | PATCH movie_id d => marshal_with (Movie.patch movie_id d)
  | DELETE movie_id => marshal_with (Movie.delete movie_id)
  end.

Definition request_id (req : request) : Z :=
  match req with
  | GET i | PUT i _ | PATCH i _ | DELETE i => i
  end.

(** The table after serving the requests one after the other. *)
Fixpoint serve {S : Storage} (db : table) (reqs : list request) : table :=
  match reqs with
  | [] => db
  | req :: rest => serve (snd (dispatch req db)) rest
  end.

(** [db.create_all()] on a fresh database file. *)
Definition create_all {S : Storage} : table := [].

(** A row with this primary key is in the table. *)
Definition present {S : Storage} (movie_id : Z) (db : table) : bool :=
  existsb (fun r => MovieModel.id r =? movie_id) db.

(** ** Vocabulary of the statements *)

(** The value a handler reads for an argument: the first value found, and
    [None] when there is none or when it is a JSON [null]. *)
Definition parsed (key : string) (d : sent) : value :=
  match source key d with
  | Some v => v
  | None => None
  end.

(** The namespace a parser builds from a request when no argument fails. *)
Definition read (d : sent) (parser : list Argument) : namespace :=
  map (fun a => (arg_name a, parsed (arg_name a) d)) parser.

(** A required argument for which the request has no value. *)
Definition missing (d : sent) (a : Argument) : bool :=
  required a && negb (is_some (source (arg_name a) d)).

(** A request that has a value for every argument of the parser. *)
Definition supplied (parser : list Argument) (d : sent) : Prop :=
  forall a, In a parser -> source (arg_name a) d <> None.

(** The row that [put] builds from the path id and the request. *)
Definition created {S : Storage} (movie_id : Z) (d : sent) : MovieModel.t :=
  MovieModel.Build movie_id
    (parsed "name" d) (bind_Integer (parsed "imdb_rating" d)) (parsed "genre" d)
    (parsed "actors" d) (parsed "director" d).

(** Field by field: the request's value where it is truthy, the old one
    elsewhere. *)
Definition overwrite {A} (v : value) (new old : A) : A :=
  if truthy v then new else old.

Definition patched {S : Storage} (d : sent) (old : MovieModel.t) : MovieModel.t :=
  MovieModel.Build (MovieModel.id old)
    (overwrite (parsed "name" d) (parsed "name" d) (MovieModel.name old))
    (overwrite (parsed "imdb_rating" d) (bind_Integer (parsed "imdb_rating" d))
       (MovieModel.imdb_rating old))
    (overwrite (parsed "genre" d) (parsed "genre" d) (MovieModel.genre old))
    (overwrite (parsed "actors" d) (parsed "actors" d) (MovieModel.actors old))
    (overwrite (parsed "director" d) (parsed "director" d) (MovieModel.director old)).

Definition has_id {S : Storage} (movie_id : Z) (r : MovieModel.t) : bool :=
  MovieModel.id r =? movie_id.

Definition has_name {S : Storage} (v : value) (r : MovieModel.t) : bool :=
  value_eqb (MovieModel.name r) v.

(** The table after [session_update] of the patched row. *)
Definition written {S : Storage} (d : sent) (old : MovieModel.t) (db : table)
  : table :=
  map (fun r => if MovieModel.id r =? MovieModel.id old
                then patched d old else r) db.

(** The names of the five arguments, in the order of the parsers. *)
Definition five : list string :=
  ["name"; "imdb_rating"; "genre"; "actors"; "director"].

(** ** A storage to run the handlers on *)

(** A text of decimal digits is stored as that integer and shown as it;
    any other text is kept as text, which [int] cannot show.  This is what
    the column and the formatter do with texts such as ["8"], ["08"] and
    ["abc"]; texts with a sign, a dot or blanks are beyond this sample. *)
Inductive stored : Type :=
| Whole (n : Z)
| Kept (s : string).

Definition digit (c : ascii) : option Z :=
  let n := Z.of_nat (nat_of_ascii c) in
  if (48 <=? n) && (n <=? 57) then Some (n - 48) else None.

Fixpoint numeral_from (acc : Z) (s : string) : option Z :=
  match s with
  | EmptyString => Some acc
  | String c rest =>
      match digit c with
      | Some k => numeral_from (10 * acc + k) rest
      | None => None
      end
  end.

Definition numeral (s : string) : option Z :=
  match s with
  | EmptyString => None
  | _ => numeral_from 0 s
  end.

Definition sample_storage : Storage :=
  Build_Storage stored
    (fun s => match numeral s with Some n => Whole n | None => Kept s end)
    (fun c => match c with Whole n => Some n | Kept _ => None end).

(** ** Sample data *)

Definition body (members : list (string * string)) : sent :=
  Sent (map (fun kv => (fst kv, Some (snd kv))) members) [].

Definition heat_body : sent :=
  body [ ("name", "Heat"); ("imdb_rating", "8"); ("genre", "Crime");
         ("actors", "Al Pacino, Robert De Niro"); ("director", "Michael Mann") ].

Definition heat : @MovieModel.t sample_storage :=
  MovieModel.Build (S := sample_storage) 1 (Some "Heat") (Some (Whole 8)) (Some "Crime")
    (Some "Al Pacino, Robert De Niro") (Some "Michael Mann").

Definition alien_body : sent :=
  body [ ("name", "Alien"); ("imdb_rating", "08"); ("genre", "Horror");
         ("actors", "Sigourney Weaver"); ("director", "Ridley Scott") ].

Definition alien : @MovieModel.t sample_storage :=
  MovieModel.Build (S := sample_storage) 2 (Some "Alien") (Some (Whole 8)) (Some "Horror")
    (Some "Sigourney Weaver") (Some "Ridley Scott").

(** A body whose rating is no number. *)
Definition ronin_body : sent :=
  body [ ("name", "Ronin"); ("imdb_rating", "abc"); ("genre", "Action");
         ("actors", "Robert De Niro"); ("director", "John Frankenheimer") ].

Definition ronin : @MovieModel.t sample_storage :=
  MovieModel.Build (S := sample_storage) 3 (Some "Ronin") (Some (Kept "abc")) (Some "Action")
    (Some "Robert De Niro") (Some "John Frankenheimer").

Definition heat_fields : resource_fields :=
  Fields 1 (Some "Heat") 8 (Some "Crime")
    (Some "Al Pacino, Robert De Niro") (Some "Michael Mann").

Definition alien_fields : resource_fields :=
  Fields 2 (Some "Alien") 8 (Some "Horror")
    (Some "Sigourney Weaver") (Some "Ridley Scott").

Definition internal_error : response := Response 500 (Error Unspecified).

Example put_heat :
  dispatch (PUT 1 heat_body) (create_all (S := sample_storage))
  = (Response 201 (Body heat_fields), [heat]).
Proof. reflexivity. Qed.

Example put_alien :
  dispatch (PUT 2 alien_body) [heat] = (Response 201 (Body alien_fields), [heat; alien]).
Proof. reflexivity. Qed.

Example put_heat_again :
  dispatch (PUT 1 alien_body) [heat]
  = (Response 409 (Error (Text "Movie id already taken")), [heat]).
Proof. reflexivity. Qed.

Example put_same_name :
  dispatch (PUT 2 heat_body) [heat]
  = (Response 409 (Error (Text "Movie name already taken")), [heat]).
Proof. reflexivity. Qed.

Example put_ronin :
  dispatch (PUT 3 ronin_body) [heat] = (internal_error, [heat; ronin]).
Proof. reflexivity. Qed.

Example get_ronin :
  dispatch (GET 3) [heat; ronin] = (internal_error, [heat; ronin]).
Proof. reflexivity. Qed.

Example put_null_genre :
  dispatch (PUT 2 (Sent [("name", Some "Alien"); ("imdb_rating", Some "8");
                         ("genre", None); ("actors", Some "Sigourney Weaver");
                         ("director", Some "Ridley Scott")] [])) [heat]
  = (internal_error, [heat]).
Proof. reflexivity. Qed.

Example put_genre_in_query_string :
  dispatch (PUT 1 (Sent [("name", Some "Heat"); ("imdb_rating", Some "8");
                         ("actors", Some "Al Pacino, Robert De Niro");
                         ("director", Some "Michael Mann")]
                        [("genre", "Crime")])) (create_all (S := sample_storage))
  = (Response 201 (Body heat_fields), [heat]).
Proof. reflexivity. Qed.

Example get_never_created :
  dispatch (GET 7) [heat] = (Response 404 (Error not_found), [heat]).
Proof. reflexivity. Qed.

Example patch_genre :
  dispatch (PATCH 1 (body [("genre", "Drama")])) [heat; alien]
  = (Response 200 (Body (Fields 1 (Some "Heat") 8 (Some "Drama")
                           (Some "Al Pacino, Robert De Niro") (Some "Michael Mann"))),
     [MovieModel.Build (S := sample_storage) 1 (Some "Heat") (Some (Whole 8)) (Some "Drama")
        (Some "Al Pacino, Robert De Niro") (Some "Michael Mann"); alien]).
Proof. reflexivity. Qed.

Example delete_then_get :
  serve create_all [PUT 1 heat_body; PUT 2 alien_body; DELETE 1] = [alien]
  /\ dispatch (DELETE 1) [heat; alien] = (Response 200 (Body marshal_defaults), [alien])
  /\ dispatch (GET 1) [alien] = (Response 404 (Error not_found), [alien]).
Proof. repeat split; reflexivity. Qed.

Example put_without_genre :
  dispatch (PUT 1 (body [("name", "Heat"); ("imdb_rating", "8")]))
    (create_all (S := sample_storage))
  = (Response 400 (Error (FieldError "genre" "Genre of the movie is required")),
     create_all).
Proof. reflexivity. Qed.

(** * Proofs *)

Section Proofs.

Context {storage : Storage}.

(** ** Lists and values *)

Lemma value_eqb_eq (a b : value) : value_eqb a b = true <-> a = b.
Proof.
  destruct a as [x|], b as [y|]; simpl; try (split; congruence).
  rewrite String.eqb_eq. split; congruence.
Qed.

Lemma truthy_some (v : value) : truthy v = true -> exists s, v = Some s.
Proof. destruct v as [s|]; simpl; [eauto | discriminate]. Qed.

Lemma first_filter {A} (p : A -> bool) (l : list A) :
  first (filter p l) = find p l.
Proof.
  induction l as [|x l IH]; simpl; [reflexivity|].
  destruct (p x); simpl; auto.
Qed.

Lemma nonempty_filter {A} (p : A -> bool) (l : list A) :
  nonempty (filter p l) = existsb p l.
Proof.
  induction l as [|x l IH]; simpl; [reflexivity|].
  destruct (p x); simpl; auto.
Qed.

Lemma is_some_find {A} (p : A -> bool) (l : list A) :
  is_some (find p l) = existsb p l.
Proof.
  induction l as [|x l IH]; simpl; [reflexivity|].
  destruct (p x); simpl; auto.
Qed.

Lemma find_append {A} (p : A -> bool) (l1 l2 : list A) :
  find p (l1 ++ l2) = match find p l1 with Some x => Some x | None => find p l2 end.
Proof.
  induction l1 as [|x l1 IH]; simpl; [reflexivity|].
  destruct (p x); auto.
Qed.

Lemma present_true (i : Z) (db : table) :
  present i db = true <-> exists r, In r db /\ MovieModel.id r = i.
Proof.
  unfold present. rewrite existsb_exists.
  split; intros [r [Hin Hr]]; exists r; split; auto; now apply Z.eqb_eq.
Qed.

Lemma present_false (i : Z) (db : table) :
  present i db = false <-> forall r, In r db -> MovieModel.id r <> i.
Proof.
  split.
  - intros H r Hin Hr.
    assert (present i db = true) by (apply present_true; eauto).
    congruence.
  - intros H. destruct (present i db) eqn:E; [|reflexivity].
    apply present_true in E. destruct E as [r [Hin Hr]].
    now elim (H r Hin).
Qed.

Lemma named_true (v : value) (db : table) :
  existsb (has_name v) db = true <-> exists r, In r db /\ MovieModel.name r = v.
Proof.
  rewrite existsb_exists. unfold has_name.
  split; intros [r [Hin Hr]]; exists r; split; auto; now apply value_eqb_eq.
Qed.

Lemma named_false (v : value) (db : table) :
  existsb (has_name v) db = false <-> ~ In v (map MovieModel.name db).
Proof.
  rewrite in_map_iff. split.
  - intros H [r [Hr Hin]].
    assert (existsb (has_name v) db = true) by (apply named_true; eauto).
    congruence.
  - intros H. destruct (existsb (has_name v) db) eqn:E; [|reflexivity].
    apply named_true in E. destruct E as [r [Hin Hr]]. elim H; eauto.
Qed.

Lemma named_free (v : value) (db : table) :
  existsb (has_name v) db = false <-> forall r, In r db -> MovieModel.name r <> v.
Proof.
  rewrite named_false, in_map_iff. split.
  - intros H r Hin E. apply H. eauto.
  - intros H (r & E & Hin). now apply (H r Hin).
Qed.

Lemma find_has_id (i : Z) (db : table) (r : MovieModel.t) :
  find (has_id i) db = Some r -> In r db /\ MovieModel.id r = i.
Proof.
  intros H. apply find_some in H. destruct H as [Hin Hr].
  split; [assumption|]. now apply Z.eqb_eq.
Qed.

Lemma find_present (i : Z) (db : table) :
  present i db = true -> exists r, find (has_id i) db = Some r.
Proof.
  intros H. destruct (find (has_id i) db) as [r|] eqn:E; [eauto|].
  apply present_true in H. destruct H as [r [Hin Hr]].
  apply (find_none _ _ E) in Hin. unfold has_id in Hin.
  apply Z.eqb_neq in Hin. contradiction.
Qed.

Lemma find_absent (i : Z) (db : table) :
  present i db = false -> find (has_id i) db = None.
Proof.
  intros H. destruct (find (has_id i) db) as [r|] eqn:E; [|reflexivity].
  apply find_has_id in E. rewrite present_false in H.
  destruct E as [Hin Hr]. now elim (H r Hin).
Qed.



Lemma unique_name_inj (db : table) (r r' : MovieModel.t) :
  NoDup (map MovieModel.name db) -> In r db -> In r' db ->
  MovieModel.name r = MovieModel.name r' -> r = r'.
Proof.
  intros Hnd Hr Hr' E.
  destruct (in_split _ _ Hr) as (l1 & l2 & ->).
  rewrite map_app in Hnd. simpl in Hnd. apply NoDup_remove_2 in Hnd.
  apply in_app_or in Hr'. destruct Hr' as [H | [H | H]]; auto;
    elim Hnd; rewrite E; apply in_or_app; [left | right]; now apply in_map.
Qed.

(** A table with a primary key splits around the row of a given id. *)
Lemma primary_key_split (db : table) (r : MovieModel.t) :
  NoDup (map MovieModel.id db) -> In r db ->
  exists l1 l2,
    db = l1 ++ r :: l2 /\
    (forall x, In x l1 -> MovieModel.id x <> MovieModel.id r) /\
    (forall x, In x l2 -> MovieModel.id x <> MovieModel.id r).
Proof.
  intros Hnd Hin. destruct (in_split _ _ Hin) as [l1 [l2 ->]].
  exists l1, l2. split; [reflexivity|].
  rewrite map_app in Hnd. simpl in Hnd.
  apply NoDup_remove_2 in Hnd.
  split; intros x Hx E; apply Hnd; rewrite <- E; apply in_or_app;
    [left | right]; now apply in_map.
Qed.

(** ** The parsers *)

(** [parse_args] never touches the table; it stops at the first required
    argument without a value and otherwise returns every argument's
    value. *)
Lemma parse_args_eq (parser : list Argument) (d : sent) (db : table) :
  parse_args parser d db =
  (match find (missing d) parser with
   | Some a => Abort 400 (FieldError (arg_name a) (help_text a))
   | None => Return (read d parser)
   end, db).
Proof.
  induction parser as [|a rest IH]; simpl; [reflexivity|].
  unfold missing at 1, parsed at 1.
  destruct (source (arg_name a) d) as [v|] eqn:E; simpl.
  - rewrite andb_false_r. unfold bind. rewrite IH.
    destruct (find (missing d) rest); reflexivity.
  - destruct (required a); simpl; [reflexivity|].
    unfold bind. rewrite IH.
    destruct (find (missing d) rest); reflexivity.
Qed.

Lemma supplied_find (parser : list Argument) (d : sent) :
  supplied parser d -> find (missing d) parser = None.
Proof.
  intros H. destruct (find (missing d) parser) as [a|] eqn:E; [|reflexivity].
  apply find_some in E. destruct E as [Hin Hm].
  unfold missing in Hm. apply andb_true_iff in Hm. destruct Hm as [_ Hm].
  specialize (H a Hin). destruct (source (arg_name a) d); [discriminate|].
  now elim H.
Qed.





Lemma supplied_key (parser : list Argument) (d : sent) (key : string) :
  supplied parser d -> In key (map arg_name parser) -> source key d <> None.
Proof.
  intros H Hk. apply in_map_iff in Hk. destruct Hk as [a [<- Ha]]. now apply H.
Qed.

(** ** The handlers, as equations on the table *)

Lemma get_eq (i : Z) (db : table) :
  Movie.get i db =
  (match find (has_id i) db with
   | Some r => Return (Row r)
   | None => Abort 404 not_found
   end, db).
Proof.
  unfold Movie.get, bind, filter_by_id. rewrite first_filter.
  fold (has_id i). destruct (find (has_id i) db); reflexivity.
Qed.

Lemma put_eq (i : Z) (d : sent) (db : table) :
  Movie.put i d db =
  match find (missing d) movie_put_args with
  | Some a => (Abort 400 (FieldError (arg_name a) (help_text a)), db)
  | None =>
      if present i db
      then (Abort 409 (Text "Movie id already taken"), db)
      else if existsb (has_name (parsed "name" d)) db
           then (Abort 409 (Text "Movie name already taken"), db)
           else if null_column (created i d)
                then (Abort 500 Unspecified, db)
                else (Return (RowCode (created i d) 201), db ++ [created i d])
  end.
Proof.
  unfold Movie.put. unfold bind at 1. rewrite parse_args_eq.
  destruct (find (missing d) movie_put_args) as [a|]; [reflexivity|].
  unfold bind, filter_by_id, filter_by_name, all, session_insert.
  rewrite first_filter, is_some_find, nonempty_filter.
  change (item (read d movie_put_args) "name") with (parsed "name" d).
  change (item (read d movie_put_args) "imdb_rating") with (parsed "imdb_rating" d).
  change (item (read d movie_put_args) "genre") with (parsed "genre" d).
  change (item (read d movie_put_args) "actors") with (parsed "actors" d).
  change (item (read d movie_put_args) "director") with (parsed "director" d).
  fold (has_name (parsed "name" d)). fold (present i db). fold (created i d).
  destruct (present i db); [reflexivity|].
  destruct (existsb (has_name (parsed "name" d)) db); [reflexivity|].
  destruct (null_column (created i d)); reflexivity.
Qed.

Lemma assign_eq (d : sent) (old : MovieModel.t) :
  Movie.assign (read d movie_update_args) old = patched d old.
Proof.
  unfold Movie.assign, patched, overwrite.
  change (item (read d movie_update_args) "name") with (parsed "name" d).
  change (item (read d movie_update_args) "imdb_rating")
    with (parsed "imdb_rating" d).
  change (item (read d movie_update_args) "genre") with (parsed "genre" d).
  change (item (read d movie_update_args) "actors") with (parsed "actors" d).
  change (item (read d movie_update_args) "director") with (parsed "director" d).
  destruct old as [i n r g a c]; simpl.
  destruct (truthy (parsed "name" d)),
           (truthy (parsed "imdb_rating" d)),
           (truthy (parsed "genre" d)),
           (truthy (parsed "actors" d)),
           (truthy (parsed "director" d)); reflexivity.
Qed.

Lemma patched_id (d : sent) (old : MovieModel.t) :
  MovieModel.id (patched d old) = MovieModel.id old.
Proof. reflexivity. Qed.

Lemma patch_eq (i : Z) (d : sent) (db : table) :
  Movie.patch i d db =
  match find (has_id i) db with
  | None => (Abort 404 not_found, db)
  | Some old =>
      if existsb (has_name (parsed "name" d)) db
      then (Abort 409 (Text "Name of the movie already used"), db)
      else (Return (Row (patched d old)), written d old db)
  end.
Proof.
  unfold Movie.patch. unfold bind at 1. rewrite parse_args_eq. simpl find.
  unfold bind, filter_by_id, filter_by_name, all.
  rewrite first_filter, nonempty_filter.
  change (item (read d movie_update_args) "name") with (parsed "name" d).
  fold (has_name (parsed "name" d)). fold (has_id i).
  destruct (find (has_id i) db) as [old|]; [|reflexivity].
  destruct (existsb (has_name (parsed "name" d)) db); [reflexivity|].
  rewrite assign_eq. reflexivity.
Qed.

Lemma delete_eq (i : Z) (db : table) :
  Movie.delete i db =
  match find (has_id i) db with
  | None => (Abort 404 not_found, db)
  | Some _ => (Return (Int 200), filter (fun r => negb (has_id i r)) db)
  end.
Proof.
  unfold Movie.delete, bind, filter_by_id, session_delete.
  rewrite first_filter. fold (has_id i).
  destruct (find (has_id i) db) as [m|] eqn:E; [|reflexivity].
  apply find_has_id in E. destruct E as [_ E]. rewrite E. reflexivity.
Qed.

(** ** Responses of the four verbs *)

Lemma dispatch_get (i : Z) (db : table) :
  dispatch (GET i) db =
  (match find (has_id i) db with
   | Some r =>
       match marshal r with
       | Some f => Response 200 (Body f)
       | None => Response 500 (Error Unspecified)
       end
   | None => Response 404 (Error not_found)
   end, db).
Proof.
  unfold dispatch, marshal_with. rewrite get_eq.
  destruct (find (has_id i) db) as [r|]; [|reflexivity].
  destruct (marshal r); reflexivity.
Qed.

Lemma dispatch_put (i : Z) (d : sent) (db : table) :
  dispatch (PUT i d) db =
  match find (missing d) movie_put_args with
  | Some a => (Response 400 (Error (FieldError (arg_name a) (help_text a))), db)
  | None =>
      if present i db
      then (Response 409 (Error (Text "Movie id already taken")), db)
      else if existsb (has_name (parsed "name" d)) db
           then (Response 409 (Error (Text "Movie name already taken")), db)
           else if null_column (created i d)
                then (Response 500 (Error Unspecified), db)
                else (match marshal (created i d) with
                      | Some f => Response 201 (Body f)
                      | None => Response 500 (Error Unspecified)
                      end, db ++ [created i d])
  end.
Proof.
  unfold dispatch, marshal_with. rewrite put_eq.
  destruct (find (missing d) movie_put_args); [reflexivity|].
  destruct (present i db); [reflexivity|].
  destruct (existsb (has_name (parsed "name" d)) db); [reflexivity|].
  destruct (null_column (created i d)); [reflexivity|].
  destruct (marshal (created i d)); reflexivity.
Qed.

Lemma dispatch_patch (i : Z) (d : sent) (db : table) :
  dispatch (PATCH i d) db =
  match find (has_id i) db with
  | None => (Response 404 (Error not_found), db)
  | Some old =>
      if existsb (has_name (parsed "name" d)) db
      then (Response 409 (Error (Text "Name of the movie already used")), db)
      else (match marshal (patched d old) with
            | Some f => Response 200 (Body f)
            | None => Response 500 (Error Unspecified)
            end, written d old db)
  end.
Proof.
  unfold dispatch, marshal_with. rewrite patch_eq.
  destruct (find (has_id i) db) as [old|]; [|reflexivity].
  destruct (existsb (has_name (parsed "name" d)) db); [reflexivity|].
  destruct (marshal (patched d old)); reflexivity.
Qed.

Lemma dispatch_delete (i : Z) (db : table) :
  dispatch (DELETE i) db =
  match find (has_id i) db with
  | None => (Response 404 (Error not_found), db)
  | Some _ => (Response 200 (Body marshal_defaults),
               filter (fun r => negb (has_id i r)) db)
  end.
Proof.
  unfold dispatch, marshal_with. rewrite delete_eq.
  destruct (find (has_id i) db); reflexivity.
Qed.

(** ** What the session writes *)

Lemma written_off (d : sent) (old : MovieModel.t) (l : table) :
  (forall x, In x l -> MovieModel.id x <> MovieModel.id old) ->
  written d old l = l.
Proof.
  intros H. unfold written. rewrite <- (map_id l) at 2.
  apply map_ext_in. intros x Hx.
  destruct (Z.eqb_spec (MovieModel.id x) (MovieModel.id old)) as [E|_];
    [now elim (H x Hx) | reflexivity].
Qed.

Lemma written_split (d : sent) (old : MovieModel.t) (l1 l2 : table) :
  (forall x, In x l1 -> MovieModel.id x <> MovieModel.id old) ->
  (forall x, In x l2 -> MovieModel.id x <> MovieModel.id old) ->
  written d old (l1 ++ old :: l2) = l1 ++ patched d old :: l2.
Proof.
  intros H1 H2.
  pose proof (written_off d old l1 H1) as E1.
  pose proof (written_off d old l2 H2) as E2.
  unfold written in *. rewrite map_app. simpl.
  rewrite Z.eqb_refl, E1, E2. reflexivity.
Qed.

Lemma written_ids (d : sent) (old : MovieModel.t) (db : table) :
  map MovieModel.id (written d old db) = map MovieModel.id db.
Proof.
  unfold written. rewrite map_map. apply map_ext. intros r.
  destruct (Z.eqb_spec (MovieModel.id r) (MovieModel.id old)) as [E|_];
    [now rewrite patched_id | reflexivity].
Qed.

Lemma find_written (i : Z) (d : sent) (old : MovieModel.t) (db : table) :
  find (has_id i) db = Some old ->
  find (has_id i) (written d old db) = Some (patched d old).
Proof.
  intros H. destruct (find_has_id _ _ _ H) as [_ Ei].
  induction db as [|x db IH]; simpl in *; [discriminate|].
  unfold has_id in H at 1.
  destruct (Z.eqb_spec (MovieModel.id x) i) as [Ex|Ex].
  - injection H as ->. rewrite Z.eqb_refl. simpl.
    unfold has_id. simpl. now rewrite Ei, Z.eqb_refl.
  - assert ((MovieModel.id x =? MovieModel.id old) = false) as ->
      by (apply Z.eqb_neq; congruence).
    simpl. unfold has_id at 1.
    assert ((MovieModel.id x =? i) = false) as -> by now apply Z.eqb_neq.
    now apply IH.
Qed.

Lemma find_written_other (j : Z) (d : sent) (old : MovieModel.t) (db : table) :
  MovieModel.id old <> j ->
  find (has_id j) (written d old db) = find (has_id j) db.
Proof.
  intros H. unfold written. induction db as [|x db IH]; simpl; [reflexivity|].
  destruct (Z.eqb_spec (MovieModel.id x) (MovieModel.id old)) as [Ex|Ex].
  - replace (has_id j (patched d old)) with false
      by (symmetry; unfold has_id; apply Z.eqb_neq; exact H).
    replace (has_id j x) with false
      by (symmetry; unfold has_id; apply Z.eqb_neq; congruence).
    exact IH.
  - destruct (has_id j x); [reflexivity | exact IH].
Qed.

Lemma deleted_in (i : Z) (db : table) (r : MovieModel.t) :
  In r (filter (fun r => negb (has_id i r)) db)
  <-> In r db /\ MovieModel.id r <> i.
Proof.
  rewrite filter_In. unfold has_id. rewrite negb_true_iff, Z.eqb_neq. tauto.
Qed.

Lemma deleted_off (i : Z) (l : table) :
  (forall x, In x l -> MovieModel.id x <> i) ->
  filter (fun r => negb (has_id i r)) l = l.
Proof.
  induction l as [|x l IH]; intros H; simpl; [reflexivity|].
  unfold has_id at 1.
  destruct (Z.eqb_spec (MovieModel.id x) i) as [E|_]; simpl.
  - elim (H x); simpl; auto.
  - f_equal. apply IH. intros y Hy. apply H. now right.
Qed.

Lemma deleted_split (r : MovieModel.t) (l1 l2 : table) :
  (forall x, In x l1 -> MovieModel.id x <> MovieModel.id r) ->
  (forall x, In x l2 -> MovieModel.id x <> MovieModel.id r) ->
  filter (fun x => negb (has_id (MovieModel.id r) x)) (l1 ++ r :: l2) = l1 ++ l2.
Proof.
  intros H1 H2. rewrite filter_app. simpl.
  unfold has_id at 2. rewrite Z.eqb_refl. simpl.
  now rewrite (deleted_off _ l1 H1), (deleted_off _ l2 H2).
Qed.

Lemma find_deleted_other (i j : Z) (db : table) :
  i <> j ->
  find (has_id j) (filter (fun r => negb (has_id i r)) db) = find (has_id j) db.
Proof.
  intros H. induction db as [|x db IH]; simpl; [reflexivity|].
  destruct (has_id i x) eqn:Ei; simpl.
  - replace (has_id j x) with false; [exact IH|].
    symmetry. unfold has_id in *. apply Z.eqb_eq in Ei. apply Z.eqb_neq.
    congruence.
  - destruct (has_id j x); [reflexivity | exact IH].
Qed.

(** Presence of an id only depends on the id column. *)
Lemma present_ids (j : Z) (db db' : table) :
  map MovieModel.id db' = map MovieModel.id db -> present j db' = present j db.
Proof.
  revert db. unfold present.
  induction db' as [|x db' IH]; intros [|y db] E; simpl in *; try discriminate;
    [reflexivity|].
  injection E as -> E. f_equal. now apply IH.
Qed.

Lemma present_inserted (j : Z) (db : table) (m : MovieModel.t) :
  present j (db ++ [m]) = present j db || (MovieModel.id m =? j).
Proof. unfold present. rewrite existsb_app. simpl. now rewrite orb_false_r. Qed.

Lemma present_deleted (j i : Z) (db : table) :
  present j (filter (fun r => negb (has_id i r)) db)
  = present j db && negb (j =? i).
Proof.
  unfold present. induction db as [|x db IH]; simpl; [reflexivity|].
  unfold has_id at 1.
  destruct (Z.eqb_spec (MovieModel.id x) i) as [Ei|Ei]; simpl; rewrite IH.
  - destruct (Z.eqb_spec (MovieModel.id x) j) as [Ej|Ej]; simpl; [|reflexivity].
    assert ((j =? i) = true) as -> by (apply Z.eqb_eq; congruence).
    simpl. now rewrite andb_false_r.
  - destruct (Z.eqb_spec (MovieModel.id x) j) as [Ej|Ej]; simpl; [|reflexivity].
    assert ((j =? i) = false) as -> by (apply Z.eqb_neq; congruence).
    reflexivity.
Qed.

(** ** The handlers keep the column constraints *)

Lemma null_column_false (r : MovieModel.t) :
  null_column r = false <-> non_null r.
Proof.
  unfold null_column, non_null.
  destruct r as [i [n|] [c|] [g|] [a|] [x|]]; simpl;
    split; intros H; try discriminate; try reflexivity;
    try (repeat split; discriminate);
    destruct H as (H1 & H2 & H3 & H4 & H5); congruence.
Qed.

Lemma overwrite_value (v old : value) :
  old <> None -> overwrite v v old <> None.
Proof.
  intros H. unfold overwrite. destruct (truthy v) eqn:E; [|assumption].
  apply truthy_some in E. destruct E as [s ->]. discriminate.
Qed.

Lemma overwrite_cell (v : value) (old : option cell) :
  old <> None -> overwrite v (bind_Integer v) old <> None.
Proof.
  intros H. unfold overwrite. destruct (truthy v) eqn:E; [|assumption].
  apply truthy_some in E. destruct E as [s ->]. discriminate.
Qed.

Lemma non_null_patched (d : sent) (old : MovieModel.t) :
  non_null old -> non_null (patched d old).
Proof.
  unfold non_null, patched; simpl.
  intros (Hn & Hr & Hg & Ha & Hd).
  repeat split; (now apply overwrite_value) || (now apply overwrite_cell).
Qed.

Lemma constraints_put (i : Z) (d : sent) (db : table) :
  constraints db -> constraints (snd (Movie.put i d db)).
Proof.
  intros [Hid Hname Hnull]. rewrite put_eq.
  destruct (find (missing d) movie_put_args) as [a|] eqn:Ea;
    [now constructor|].
  destruct (present i db) eqn:Ep; [now constructor|].
  destruct (existsb (has_name (parsed "name" d)) db) eqn:En;
    [now constructor|].
  destruct (null_column (created i d)) eqn:Ec; [now constructor|].
  simpl. constructor.
  - rewrite map_app. simpl. apply NoDup_Add with (a := i) (l := map MovieModel.id db).
    + rewrite <- (app_nil_r (map MovieModel.id db)) at 1. apply Add_app.
    + split; [assumption|]. rewrite in_map_iff. intros [r [Hr Hin]].
      rewrite present_false in Ep. now elim (Ep r Hin).
  - rewrite map_app. simpl.
    apply NoDup_Add with (a := parsed "name" d) (l := map MovieModel.name db).
    + rewrite <- (app_nil_r (map MovieModel.name db)) at 1. apply Add_app.
    + split; [assumption|]. now apply named_false.
  - apply Forall_app. split; [assumption|]. constructor; [|constructor].
    now apply null_column_false.
Qed.

Lemma constraints_patch (i : Z) (d : sent) (db : table) :
  constraints db -> constraints (snd (Movie.patch i d db)).
Proof.
  intros [Hid Hname Hnull]. rewrite patch_eq.
  destruct (find (has_id i) db) as [old|] eqn:Eo; [|now constructor].
  destruct (existsb (has_name (parsed "name" d)) db) eqn:En;
    [now constructor|].
  simpl. apply find_has_id in Eo. destruct Eo as [Hin Ei].
  apply named_false in En.
  constructor.
  - now rewrite written_ids.
  - destruct (primary_key_split db old Hid Hin) as (l1 & l2 & -> & H1 & H2).
    rewrite written_split by assumption.
    rewrite map_app in *. simpl in *.
    apply NoDup_Add with (a := overwrite (parsed "name" d) (parsed "name" d)
                                 (MovieModel.name old))
                         (l := map MovieModel.name l1 ++ map MovieModel.name l2);
      [apply Add_app|].
    split; [now apply NoDup_remove_1 in Hname|].
    unfold overwrite. destruct (truthy (parsed "name" d)) eqn:Et.
    + intros Hc. apply En. apply in_app_or in Hc. apply in_or_app.
      destruct Hc; [left | right; right]; assumption.
    + now apply NoDup_remove_2 in Hname.
  - unfold written. rewrite Forall_forall in *. intros x Hx.
    apply in_map_iff in Hx. destruct Hx as [r [<- Hr]].
    destruct (MovieModel.id r =? MovieModel.id old); auto.
    apply non_null_patched. auto.
Qed.

(** Taking rows out of the table keeps a column free of duplicates. *)
Lemma deleted_column {B} (col : MovieModel.t -> B) (i : Z) (db : table) :
  NoDup (map col db) ->
  NoDup (map col (filter (fun r => negb (has_id i r)) db)).
Proof.
  intros Hnd. induction db as [|x db IH]; simpl; [constructor|].
  apply NoDup_cons_iff in Hnd. destruct Hnd as [Hx Hdb].
  destruct (has_id i x); simpl; [now apply IH|].
  apply NoDup_cons; [|now apply IH].
  rewrite in_map_iff. intros (y & Ey & Hy).
  apply deleted_in in Hy. apply Hx. rewrite <- Ey. apply in_map. tauto.
Qed.

Lemma constraints_delete (i : Z) (db : table) :
  constraints db -> constraints (snd (Movie.delete i db)).
Proof.
  intros [Hid Hname Hnull]. rewrite delete_eq.
  destruct (find (has_id i) db); [|now constructor].
  simpl. constructor.
  - now apply deleted_column.
  - now apply deleted_column.
  - rewrite Forall_forall in *. intros x Hx. apply filter_In in Hx.
    apply Hnull. tauto.
Qed.

Lemma get_table (i : Z) (db : table) : snd (Movie.get i db) = db.
Proof. rewrite get_eq. reflexivity. Qed.

Lemma marshal_with_table (h : handler retval) (db : table) :
  snd (marshal_with h db) = snd (h db).
Proof.
  unfold marshal_with. destruct (h db) as [[[r | r code | n] | code msg] db'];
    try reflexivity; destruct (marshal r); reflexivity.
Qed.

Lemma constraints_dispatch (req : request) (db : table) :
  constraints db -> constraints (snd (dispatch req db)).
Proof.
  intros H. destruct req as [i | i d | i d | i]; simpl;
    rewrite marshal_with_table.
  - now rewrite get_table.
  - now apply constraints_put.
  - now apply constraints_patch.
  - now apply constraints_delete.
Qed.

Lemma constraints_create_all : constraints create_all.
Proof. constructor; simpl; constructor. Qed.

Lemma constraints_serve (reqs : list request) (db : table) :
  constraints db -> constraints (serve db reqs).
Proof.
  revert db. induction reqs as [|req reqs IH]; intros db H; simpl; auto.
  apply IH. now apply constraints_dispatch.
Qed.


Lemma null_column_created (i : Z) (d : sent) :
  null_column (created i d) = false <->
  forall key, In key five -> parsed key d <> None.
Proof.
  rewrite null_column_false. unfold non_null, created, bind_Integer, five; simpl.
  split.
  - intros (Hn & Hr & Hg & Ha & Hd) key Hk.
    destruct Hk as [<- | [<- | [<- | [<- | [<- | []]]]]]; try assumption.
    intros E. apply Hr. now rewrite E.
  - intros H.
    assert (Hn : parsed "name" d <> None) by (apply H; tauto).
    assert (Hr : parsed "imdb_rating" d <> None) by (apply H; tauto).
    assert (Hg : parsed "genre" d <> None) by (apply H; tauto).
    assert (Ha : parsed "actors" d <> None) by (apply H; tauto).
    assert (Hd : parsed "director" d <> None) by (apply H; tauto).
    repeat split; try assumption.
    destruct (parsed "imdb_rating" d); [discriminate | now elim Hr].
Qed.

Lemma marshal_created (i : Z) (d : sent) (text : string) :
  parsed "imdb_rating" d = Some text ->
  marshal (created i d)
  = match fields_Integer (db_Integer text) with
    | Some n => Some (Fields i (parsed "name" d) n (parsed "genre" d)
                        (parsed "actors" d) (parsed "director" d))
    | None => None
    end.
Proof. intros E. unfold marshal, created; simpl. now rewrite E. Qed.

(** A PUT that passes every test and whose stored rating cannot be shown:
    the row is written, the answer is 500. *)
Lemma put_unshowable (i : Z) (d : sent) (db : table) (text : string) :
  supplied movie_put_args d ->
  (forall key, In key five -> parsed key d <> None) ->
  (forall r, In r db -> MovieModel.id r <> i) ->
  (forall r, In r db -> MovieModel.name r <> parsed "name" d) ->
  parsed "imdb_rating" d = Some text ->
  fields_Integer (db_Integer text) = None ->
  dispatch (PUT i d) db = (Response 500 (Error Unspecified), db ++ [created i d]).
Proof.
  intros Hs Hnn Hid Hname Ht Hf.
  apply supplied_find in Hs. apply present_false in Hid.
  apply named_free in Hname.
  pose proof (proj2 (null_column_created i d) Hnn) as Hc.
  now rewrite dispatch_put, Hs, Hid, Hname, Hc, (marshal_created i d text Ht), Hf.
Qed.

Lemma supplied_ronin_body : supplied movie_put_args ronin_body.
Proof.
  intros a Ha. simpl in Ha.
  repeat (destruct Ha as [<- | Ha]; [discriminate|]). contradiction.
Qed.

Lemma non_null_ronin_body (key : string) :
  In key five -> parsed key ronin_body <> None.
Proof.
  intros Hk. simpl in Hk.
  repeat (destruct Hk as [<- | Hk]; [discriminate|]). contradiction.
Qed.

Lemma put_ronin_unshowable :
  fields_Integer (db_Integer "abc") = None ->
  dispatch (PUT 3 ronin_body) create_all
  = (Response 500 (Error Unspecified), [created 3 ronin_body]).
Proof.
  intros Hf.
  apply (put_unshowable 3 ronin_body create_all "abc");
    auto using supplied_ronin_body, non_null_ronin_body;
    intros r [].
Qed.

(** * The claims *)

(** C1. Starting from the empty table, after any finite sequence of GET,
    PUT, PATCH and DELETE requests no two rows share an id, no two rows
    share a name, and every row has a non-null name, imdb_rating, genre,
    actors and director. *)
Theorem constraints_after_requests (reqs : list request) :
  NoDup (map MovieModel.id (serve create_all reqs)) /\
  NoDup (map MovieModel.name (serve create_all reqs)) /\
  Forall (fun r => MovieModel.name r <> None /\
                   MovieModel.imdb_rating r <> None /\
                   MovieModel.genre r <> None /\
                   MovieModel.actors r <> None /\
                   MovieModel.director r <> None)
         (serve create_all reqs).
Proof.
  destruct (constraints_serve reqs create_all constraints_create_all)
    as [Hid Hname Hnull].
  repeat split; assumption.
Qed.

(** C2. The claim says that no row is inserted on any failure path of PUT.
    The code commits the row and formats the answer afterwards: a PUT that
    passes every test, with a rating text whose stored value the integer
    formatter cannot show, is answered 500 and yet its row is in the
    table. *)
Theorem put_failure_after_commit (i : Z) (d : sent) (db : table) (text : string) :
  supplied movie_put_args d ->
  (forall key, In key five -> parsed key d <> None) ->
  (forall r, In r db -> MovieModel.id r <> i) ->
  (forall r, In r db -> MovieModel.name r <> parsed "name" d) ->
  parsed "imdb_rating" d = Some text ->
  fields_Integer (db_Integer text) = None ->
  status (fst (dispatch (PUT i d) db)) = 500 /\
  snd (dispatch (PUT i d) db) = db ++ [created i d] /\
  snd (dispatch (PUT i d) db) <> db.
Proof.
  intros Hs Hnn Hid Hname Ht Hf.
  rewrite (put_unshowable i d db text) by assumption.
  simpl. repeat split.
  intros E. apply (f_equal (@List.length _)) in E.
  rewrite length_app in E. simpl in E. lia.
Qed.

(** C3. PATCH on an id that has a row, with a body whose name is the name
    of some stored row (the target row's own name included): the answer is
    409 "Name of the movie already used" and the table is left as it was,
    whatever the query string and form hold. *)
Theorem patch_name_conflict (i : Z) (d : sent) (db : table) (n : string) :
  (exists r, In r db /\ MovieModel.id r = i) ->
  json_get "name" (json d) = Some (Some n) ->
  (exists r, In r db /\ MovieModel.name r = Some n) ->
  dispatch (PATCH i d) db
  = (Response 409 (Error (Text "Name of the movie already used")), db).
Proof.
  intros Hid Hn Hname. rewrite dispatch_patch.
  apply present_true, find_present in Hid. destruct Hid as [old ->].
  assert (Hp : parsed "name" d = Some n) by (unfold parsed, source; now rewrite Hn).
  rewrite Hp. apply named_true in Hname. now rewrite Hname.
Qed.


(** C5 (amended). A PATCH that answers 200 changes the row with the path id
    and nothing else: the table keeps its length and every row of another
    id stays where it was.  The answer shows the new row, which keeps the
    id and takes, for each of name, imdb_rating, genre, actors and
    director, the request's value where that value is truthy and the
    stored value elsewhere; the request's value is the member of the JSON
    body, else the query-string or form value.  On a table with a primary
    key the new table is the old one with that single row replaced.  A
    request that carries only genre "Drama" changes only genre. *)
Theorem patch_frame (i : Z) (d : sent) (db : table) :
  status (fst (dispatch (PATCH i d) db)) = 200 ->
  exists old new f,
    In old db /\
    MovieModel.id old = i /\
    MovieModel.id new = i /\
    MovieModel.name new
    = (if truthy (parsed "name" d)
       then parsed "name" d else MovieModel.name old) /\
    MovieModel.imdb_rating new
    = (if truthy (parsed "imdb_rating" d)
       then option_map db_Integer (parsed "imdb_rating" d)
       else MovieModel.imdb_rating old) /\
    MovieModel.genre new
    = (if truthy (parsed "genre" d)
       then parsed "genre" d else MovieModel.genre old) /\
    MovieModel.actors new
    = (if truthy (parsed "actors" d)
       then parsed "actors" d else MovieModel.actors old) /\
    MovieModel.director new
    = (if truthy (parsed "director" d)
       then parsed "director" d else MovieModel.director old) /\
    (d = Sent [("genre", Some "Drama")] [] ->
     new = MovieModel.Build i (MovieModel.name old) (MovieModel.imdb_rating old)
             (Some "Drama") (MovieModel.actors old) (MovieModel.director old)) /\
    marshal new = Some f /\
    fst (dispatch (PATCH i d) db) = Response 200 (Body f) /\
    List.length (snd (dispatch (PATCH i d) db)) = List.length db /\
    (forall k r, nth_error db k = Some r -> MovieModel.id r <> i ->
                 nth_error (snd (dispatch (PATCH i d) db)) k = Some r) /\
    (NoDup (map MovieModel.id db) ->
     exists l1 l2,
       db = l1 ++ old :: l2 /\
       snd (dispatch (PATCH i d) db) = l1 ++ new :: l2).
Proof.
  intros Hok. rewrite dispatch_patch in *.
  destruct (find (has_id i) db) as [old|] eqn:Eo; [|discriminate].
  destruct (existsb (has_name (parsed "name" d)) db); [discriminate|].
  destruct (marshal (patched d old)) as [f|] eqn:Em; [|discriminate].
  apply find_has_id in Eo. destruct Eo as [Hin Ei].
  exists old, (patched d old), f. simpl fst. simpl snd.
  split; [exact Hin|]. split; [exact Ei|].
  repeat (split; [assumption || reflexivity|]).
  split; [intros ->; rewrite <- Ei; reflexivity|].
  split; [exact Em|].
  split; [reflexivity|].
  split; [apply length_map|].
  split.
  - intros k r Hk Hr. unfold written. rewrite nth_error_map, Hk. simpl.
    destruct (Z.eqb_spec (MovieModel.id r) (MovieModel.id old)) as [E|_];
      [congruence | reflexivity].
  - intros Hpk.
    destruct (primary_key_split db old Hpk Hin) as (l1 & l2 & E & H1 & H2).
    exists l1, l2. split; [exact E|].
    rewrite E at 1. now apply written_split.
Qed.



(** C8. The claim says that GET on an id with a row answers 200 with that
    row's six fields.  A row whose rating the formatter cannot show is put
    into the table by a PUT (itself answered 500), and every GET on its id
    then answers 500. *)
Theorem get_failure_on_stored_row :
  fields_Integer (db_Integer "abc") = None ->
  (exists r, In r (serve create_all [PUT 3 ronin_body]) /\ MovieModel.id r = 3) /\
  dispatch (GET 3) (serve create_all [PUT 3 ronin_body])
  = (Response 500 (Error Unspecified), serve create_all [PUT 3 ronin_body]).
Proof.
  intros Hf.
  assert (Hdb : serve create_all [PUT 3 ronin_body] = [created 3 ronin_body]).
  { change (serve create_all [PUT 3 ronin_body])
      with (snd (dispatch (PUT 3 ronin_body) create_all)).
    now rewrite (put_ronin_unshowable Hf). }
  rewrite Hdb. split.
  - exists (created 3 ronin_body). split; [now left | reflexivity].
  - rewrite dispatch_get.
    change (find (has_id 3) [created 3 ronin_body])
      with (Some (created 3 ronin_body)).
    cbv beta iota.
    now rewrite (marshal_created 3 ronin_body "abc" eq_refl), Hf.
Qed.

(** C9. The claim says that an id goes from absent to present only by a
    successful PUT.  A PUT whose rating the formatter cannot show is
    answered 500, and its id is absent before it and present after it. *)
Theorem put_failure_makes_present :
  fields_Integer (db_Integer "abc") = None ->
  present 3 create_all = false /\
  present 3 (snd (dispatch (PUT 3 ronin_body) create_all)) = true /\
  status (fst (dispatch (PUT 3 ronin_body) create_all)) = 500.
Proof.
  intros Hf. rewrite (put_ronin_unshowable Hf). repeat split.
Qed.


(** * Further properties of the handlers *)



(** X3. A PUT answered 201 adds one row at the end of the table and
    touches no other: the new row has the path id, the request's name,
    genre, actors and director, and what the column stores of the
    request's rating text; the rows that were there keep their places. *)
Theorem put_appends_one_row (i : Z) (d : sent) (db : table) :
  status (fst (dispatch (PUT i d) db)) = 201 ->
  snd (dispatch (PUT i d) db)
  = db ++ [MovieModel.Build i (parsed "name" d)
             (option_map db_Integer (parsed "imdb_rating" d))
             (parsed "genre" d) (parsed "actors" d) (parsed "director" d)]
  /\ List.length (snd (dispatch (PUT i d) db)) = S (List.length db)
  /\ (forall k r, nth_error db k = Some r ->
                  nth_error (snd (dispatch (PUT i d) db)) k = Some r).
Proof.
  rewrite dispatch_put.
  destruct (find (missing d) movie_put_args); [discriminate|].
  destruct (present i db); [discriminate|].
  destruct (existsb (has_name (parsed "name" d)) db); [discriminate|].
  destruct (null_column (created i d)); [discriminate|].
  intros _. simpl. split; [reflexivity|]. split.
  - rewrite length_app. simpl. now rewrite Nat.add_1_r.
  - intros k r Hk. rewrite nth_error_app1; [assumption|].
    apply nth_error_Some. congruence.
Qed.



(** X6. Whatever the verb, an answer with a status from 400 to 499 leaves
    the table as it was: every [abort] comes before the first write. *)
Theorem abort_keeps_table (req : request) (db : table) :
  400 <= status (fst (dispatch req db)) < 500 ->
  snd (dispatch req db) = db.
Proof.
  destruct req as [i | i d | i d | i].
  - rewrite dispatch_get. reflexivity.
  - rewrite dispatch_put.
    destruct (find (missing d) movie_put_args); [reflexivity|].
    destruct (present i db); [reflexivity|].
    destruct (existsb (has_name (parsed "name" d)) db); [reflexivity|].
    destruct (null_column (created i d)); [reflexivity|].
    destruct (marshal (created i d)); simpl; lia.
  - rewrite dispatch_patch. destruct (find (has_id i) db) as [old|]; [|reflexivity].
    destruct (existsb (has_name (parsed "name" d)) db); [reflexivity|].
    destruct (marshal (patched d old)); simpl; lia.
  - rewrite dispatch_delete. destruct (find (has_id i) db); [|reflexivity].
    simpl. lia.
Qed.

Lemma find_missing_agree (d d' : sent) (parser : list Argument) :
  (forall a, In a parser -> source (arg_name a) d = source (arg_name a) d') ->
  find (missing d) parser = find (missing d') parser.
Proof.
  induction parser as [|a rest IH]; intros H; simpl; [reflexivity|].
  unfold missing at 1 3. rewrite (H a) by now left.
  destruct (required a && negb (is_some (source (arg_name a) d')));
    [reflexivity|]. apply IH. intros b Hb. apply H. now right.
Qed.

(** X7. Only the five declared arguments of a request count: two requests
    in which name, imdb_rating, genre, actors and director are found with
    the same values get the same answer and leave the same table, for PUT
    and for PATCH, whatever other keys they carry. *)
Theorem undeclared_keys_ignored (i : Z) (d d' : sent) (db : table) :
  (forall key, In key five -> source key d = source key d') ->
  dispatch (PUT i d) db = dispatch (PUT i d') db /\
  dispatch (PATCH i d) db = dispatch (PATCH i d') db.
Proof.
  intros H.
  assert (Hp : forall key, In key five -> parsed key d = parsed key d').
  { intros key Hk. unfold parsed. now rewrite (H key Hk). }
  assert (En : parsed "name" d = parsed "name" d') by (apply Hp; simpl; tauto).
  assert (Er : parsed "imdb_rating" d = parsed "imdb_rating" d')
    by (apply Hp; simpl; tauto).
  assert (Eg : parsed "genre" d = parsed "genre" d') by (apply Hp; simpl; tauto).
  assert (Ea : parsed "actors" d = parsed "actors" d') by (apply Hp; simpl; tauto).
  assert (Ed : parsed "director" d = parsed "director" d')
    by (apply Hp; simpl; tauto).
  split.
  - rewrite !dispatch_put.
    rewrite (find_missing_agree d d' movie_put_args).
    + unfold created. now rewrite En, Er, Eg, Ea, Ed.
    + intros a Ha. apply H. change five with (map arg_name movie_put_args).
      now apply in_map.
  - rewrite !dispatch_patch. unfold written, patched.
    now rewrite En, Er, Eg, Ea, Ed.
Qed.



(** X10. A PUT answered 201 followed by DELETE on the same id gives the
    table back as it was before the PUT, and the DELETE answers 200. *)
Theorem put_then_delete (i : Z) (d : sent) (db : table) :
  status (fst (dispatch (PUT i d) db)) = 201 ->
  dispatch (DELETE i) (snd (dispatch (PUT i d) db))
  = (Response 200 (Body marshal_defaults), db).
Proof.
  intros Hok. rewrite (dispatch_put i d) in *.
  destruct (find (missing d) movie_put_args); [discriminate|].
  destruct (present i db) eqn:Ep; [discriminate|].
  destruct (existsb (has_name (parsed "name" d)) db); [discriminate|].
  destruct (null_column (created i d)); [discriminate|].
  simpl snd. rewrite dispatch_delete, find_append, (find_absent _ _ Ep).
  simpl. unfold has_id at 1. simpl. rewrite Z.eqb_refl.
  rewrite filter_app. simpl. unfold has_id at 2. simpl. rewrite Z.eqb_refl.
  simpl. rewrite app_nil_r, deleted_off; [reflexivity|].
  now apply present_false.
Qed.

(** X11. DELETE frees both the id and the name of the row it removes: on a
    table with unique names, after DELETE on the id of a stored row, a PUT
    on that id with that row's name passes both conflict tests and is
    answered as it would be on the empty table. *)
Theorem delete_then_put (i : Z) (d : sent) (db : table) (r : MovieModel.t) :
  NoDup (map MovieModel.name db) ->
  In r db -> MovieModel.id r = i ->
  parsed "name" d = MovieModel.name r ->
  fst (dispatch (PUT i d) (snd (dispatch (DELETE i) db)))
  = fst (dispatch (PUT i d) create_all).
Proof.
  intros Hnames Hin Hi Hn.
  assert (Hp : present i db = true) by (apply present_true; eauto).
  destruct (find_present _ _ Hp) as [m Em].
  rewrite dispatch_delete, Em. simpl snd.
  rewrite !dispatch_put.
  destruct (find (missing d) movie_put_args); [reflexivity|].
  assert (present i (filter (fun x => negb (has_id i x)) db) = false) as ->.
  { apply present_false. intros x Hx. now apply deleted_in in Hx. }
  assert (existsb (has_name (parsed "name" d))
            (filter (fun x => negb (has_id i x)) db) = false) as ->.
  { apply named_free. intros x Hx E. apply deleted_in in Hx.
    destruct Hx as [Hx Hxi]. apply Hxi. rewrite Hn in E.
    now rewrite (unique_name_inj db x r Hnames Hx Hin E). }
  simpl. destruct (null_column (created i d)); reflexivity.
Qed.

(** X12. A PATCH answered 200 followed by GET on the same id: the GET
    answers 200 with the very body the PATCH returned and changes
    nothing. *)
Theorem patch_then_get (i : Z) (d : sent) (db : table) :
  status (fst (dispatch (PATCH i d) db)) = 200 ->
  dispatch (GET i) (snd (dispatch (PATCH i d) db))
  = dispatch (PATCH i d) db.
Proof.
  intros Hok. rewrite (dispatch_patch i d) in *.
  destruct (find (has_id i) db) as [old|] eqn:Eo; [|discriminate].
  destruct (existsb (has_name (parsed "name" d)) db); [discriminate|].
  simpl snd. now rewrite dispatch_get, (find_written i d old db Eo).
Qed.

(** X13. A PATCH answered 200 for which the request has no truthy value
    among the five arguments (nothing sent, or fields given as empty text)
    writes nothing new: on a table with a primary key the table is left
    as it was and the answer shows the stored row. *)
Theorem patch_nothing_truthy (i : Z) (d : sent) (db : table) :
  NoDup (map MovieModel.id db) ->
  status (fst (dispatch (PATCH i d) db)) = 200 ->
  (forall key, In key five -> truthy (parsed key d) = false) ->
  exists old f,
    In old db /\ MovieModel.id old = i /\ marshal old = Some f /\
    dispatch (PATCH i d) db = (Response 200 (Body f), db).
Proof.
  intros Hpk Hok Hfalsy. rewrite dispatch_patch in *.
  destruct (find (has_id i) db) as [old|] eqn:Eo; [|discriminate].
  destruct (existsb (has_name (parsed "name" d)) db); [discriminate|].
  apply find_has_id in Eo. destruct Eo as [Hin Ei].
  assert (Esame : patched d old = old).
  { unfold patched, overwrite.
    rewrite !Hfalsy by (simpl; tauto). now destruct old. }
  rewrite Esame in *.
  destruct (marshal old) as [f|] eqn:Em; [|discriminate].
  exists old, f. repeat (split; [assumption || reflexivity|]).
  destruct (primary_key_split db old Hpk Hin) as (l1 & l2 & E & H1 & H2).
  assert (Ew : written d old db = db).
  { rewrite E, written_split by assumption. now rewrite Esame. }
  now rewrite Ew.
Qed.

(** X14. A request on one id never changes what GET answers on another
    id: for every request and every id other than the request's own, the
    answer of GET on that id is the same before and after the request. *)
Theorem get_other_id_stable (req : request) (j : Z) (db : table) :
  j <> request_id req ->
  fst (dispatch (GET j) (snd (dispatch req db))) = fst (dispatch (GET j) db).
Proof.
  intros Hj. rewrite !dispatch_get. simpl fst.
  assert (Hfind : find (has_id j) (snd (dispatch req db)) = find (has_id j) db);
    [|now rewrite Hfind].
  destruct req as [i | i d | i d | i]; simpl in Hj.
  - now rewrite dispatch_get.
  - rewrite dispatch_put.
    destruct (find (missing d) movie_put_args); [reflexivity|].
    destruct (present i db); [reflexivity|].
    destruct (existsb (has_name (parsed "name" d)) db); [reflexivity|].
    destruct (null_column (created i d)); [reflexivity|].
    simpl snd. rewrite find_append. destruct (find (has_id j) db); [reflexivity|].
    simpl. unfold has_id. simpl.
    now assert ((i =? j) = false) as -> by (apply Z.eqb_neq; congruence).
  - rewrite dispatch_patch.
    destruct (find (has_id i) db) as [old|] eqn:Eo; [|reflexivity].
    destruct (existsb (has_name (parsed "name" d)) db); [reflexivity|].
    simpl snd. apply find_has_id in Eo. destruct Eo as [_ Ei].
    apply find_written_other. congruence.
  - rewrite dispatch_delete.
    destruct (find (has_id i) db) as [m|]; [|reflexivity].
    simpl snd. apply find_deleted_other. congruence.
Qed.


(** X16. How the number of rows moves in one step: a PUT answered 201 adds
    one row; on a table with a primary key a DELETE answered 200 takes one
    row away; GET and PATCH keep the number of rows whatever they answer;
    an answer with a status from 400 to 499 keeps it; and a PUT never does
    anything but keep it or add one. *)
Theorem row_count_step (req : request) (db : table) :
  (status (fst (dispatch req db)) = 201 ->
   List.length (snd (dispatch req db)) = (List.length db + 1)%nat)
  /\
  (NoDup (map MovieModel.id db) ->
   (exists i, req = DELETE i) -> status (fst (dispatch req db)) = 200 ->
   (List.length (snd (dispatch req db)) + 1)%nat = List.length db)
  /\
  ((exists i, req = GET i) \/ (exists i d, req = PATCH i d) ->
   List.length (snd (dispatch req db)) = List.length db)
  /\
  (400 <= status (fst (dispatch req db)) < 500 ->
   List.length (snd (dispatch req db)) = List.length db)
  /\
  ((exists i d, req = PUT i d) ->
   List.length (snd (dispatch req db)) = List.length db \/
   List.length (snd (dispatch req db)) = (List.length db + 1)%nat).
Proof.
  destruct req as [i | i d | i d | i].
  - rewrite dispatch_get. simpl snd.
    repeat split; try reflexivity; auto.
    + destruct (find (has_id i) db) as [r|]; [destruct (marshal r)|];
        discriminate.
    + intros _ [k Hk]. discriminate.
  - rewrite dispatch_put.
    assert (Hkeep : forall resp : response,
      (status resp = 201 -> List.length db = (List.length db + 1)%nat) ->
      (status resp = 201 -> List.length db = (List.length db + 1)%nat) /\
      (NoDup (map MovieModel.id db) ->
       (exists k, PUT i d = DELETE k) -> status resp = 200 ->
       (List.length db + 1)%nat = List.length db) /\
      ((exists k, PUT i d = GET k) \/ (exists k e, PUT i d = PATCH k e) ->
       List.length db = List.length db) /\
      (400 <= status resp < 500 -> List.length db = List.length db) /\
      ((exists k e, PUT i d = PUT k e) ->
       List.length db = List.length db \/
       List.length db = (List.length db + 1)%nat)).
    { intros resp H. repeat split; auto. intros _ [k Hk]. discriminate. }
    destruct (find (missing d) movie_put_args);
      [apply Hkeep; discriminate|].
    destruct (present i db); [apply Hkeep; discriminate|].
    destruct (existsb (has_name (parsed "name" d)) db);
      [apply Hkeep; discriminate|].
    destruct (null_column (created i d)); [apply Hkeep; discriminate|].
    simpl snd. simpl fst. rewrite length_app. simpl List.length.
    repeat split; auto.
    + intros _ [k Hk]. discriminate.
    + intros [[k Hk] | [k [e Hk]]]; discriminate.
    + destruct (marshal (created i d)); simpl; lia.
  - rewrite dispatch_patch.
    destruct (find (has_id i) db) as [old|].
    + destruct (existsb (has_name (parsed "name" d)) db).
      * simpl. repeat split; auto; try discriminate;
          try (intros _ [k Hk]; discriminate).
      * simpl snd. simpl fst. unfold written. rewrite length_map.
        repeat split; auto; try (intros _ [k Hk]; discriminate).
        destruct (marshal (patched d old)); discriminate.
    + simpl. repeat split; auto; try discriminate;
        try (intros _ [k Hk]; discriminate).
  - rewrite dispatch_delete.
    destruct (find (has_id i) db) as [m|] eqn:Em.
    + simpl snd. simpl fst.
      split; [simpl; discriminate|].
      split.
      { intros Hpk _ _. apply find_has_id in Em. destruct Em as [Hin Ei].
        destruct (primary_key_split db m Hpk Hin) as (l1 & l2 & E & H1 & H2).
        rewrite E at 1. rewrite <- Ei, deleted_split by assumption.
        rewrite E, !length_app. simpl. lia. }
      split; [intros [[k Hk] | [k [e Hk]]]; discriminate|].
      split; [simpl; lia | intros [k [e Hk]]; discriminate].
    + simpl snd. simpl fst.
      split; [simpl; discriminate|].
      split; [simpl; discriminate|].
      split; [reflexivity|].
      split; [reflexivity | intros [k [e Hk]]; discriminate].
Qed.

(** X17. On every table reached from the empty one, a GET answered 200
    shows no null field: the path id, an integer rating and four texts. *)
Theorem get_shows_no_null (reqs : list request) (i : Z) :
  status (fst (dispatch (GET i) (serve create_all reqs))) = 200 ->
  exists n r g a c,
    fst (dispatch (GET i) (serve create_all reqs))
    = Response 200 (Body (Fields i (Some n) r (Some g) (Some a) (Some c))).
Proof.
  pose proof (constraints_serve reqs create_all constraints_create_all) as Hc.
  destruct Hc as [_ _ Hnull]. rewrite dispatch_get.
  destruct (find (has_id i) (serve create_all reqs)) as [m|] eqn:Em;
    [|discriminate].
  apply find_has_id in Em. destruct Em as [Hin Ei].
  rewrite Forall_forall in Hnull.
  destruct (Hnull m Hin) as (Hn & Hr & Hg & Ha & Hd).
  unfold marshal.
  destruct (output_Integer (MovieModel.imdb_rating m)) as [r|]; [|discriminate].
  intros _.
  destruct m as [mi [n|] mr [g|] [a|] [c|]]; simpl in *; try congruence.
  exists n, r, g, a, c. now rewrite Ei.
Qed.



(** X20. In one step from any table: an id goes from absent to present
    only by a PUT on that id that passed its tests (answered 201, or 500
    when the new row cannot be shown); an id goes from present to absent
    only by a DELETE on that id answered 200; GET and PATCH leave the
    presence of every id as it was; and no request changes the presence
    of an id other than its own. *)
Theorem presence_transitions (req : request) (db : table) :
  (forall j, present j db = false -> present j (snd (dispatch req db)) = true ->
     (exists d, req = PUT j d) /\
     (status (fst (dispatch req db)) = 201 \/ status (fst (dispatch req db)) = 500))
  /\
  (forall j, present j db = true -> present j (snd (dispatch req db)) = false ->
     req = DELETE j /\ status (fst (dispatch req db)) = 200)
  /\
  (forall j, (exists i, req = GET i) \/ (exists i d, req = PATCH i d) ->
     present j (snd (dispatch req db)) = present j db)
  /\
  (forall j, j <> request_id req ->
     present j (snd (dispatch req db)) = present j db).
Proof.
  assert (Hkeep : forall resp : response,
    snd (dispatch req db) = db ->
    fst (dispatch req db) = resp ->
    (forall j, present j db = false -> present j (snd (dispatch req db)) = true ->
       (exists d, req = PUT j d) /\ (status resp = 201 \/ status resp = 500))
    /\ (forall j, present j db = true ->
          present j (snd (dispatch req db)) = false ->
          req = DELETE j /\ status resp = 200)
    /\ (forall j, (exists i, req = GET i) \/ (exists i d, req = PATCH i d) ->
          present j (snd (dispatch req db)) = present j db)
    /\ (forall j, j <> request_id req ->
          present j (snd (dispatch req db)) = present j db)).
  { intros resp -> _. repeat split; intros; congruence. }
  destruct req as [i | i d | i d | i].
  - rewrite dispatch_get in *. eapply Hkeep; reflexivity.
  - rewrite dispatch_put in *.
    destruct (find (missing d) movie_put_args); [eapply Hkeep; reflexivity|].
    destruct (present i db) eqn:Ep; [eapply Hkeep; reflexivity|].
    destruct (existsb (has_name (parsed "name" d)) db);
      [eapply Hkeep; reflexivity|].
    destruct (null_column (created i d)); [eapply Hkeep; reflexivity|].
    clear Hkeep. simpl snd. simpl fst.
    split; [|split; [|split]].
    + intros j Hj. rewrite present_inserted, Hj. simpl.
      intros E. apply Z.eqb_eq in E. subst j. split; [eauto|].
      destruct (marshal (created i d)); simpl; auto.
    + intros j Hj. rewrite present_inserted, Hj. discriminate.
    + intros j [[k H] | [k [b H]]]; discriminate.
    + intros j Hj. rewrite present_inserted. simpl in *.
      assert ((i =? j) = false) as -> by (apply Z.eqb_neq; congruence).
      apply orb_false_r.
  - rewrite dispatch_patch in *.
    destruct (find (has_id i) db) as [old|]; [|eapply Hkeep; reflexivity].
    destruct (existsb (has_name (parsed "name" d)) db);
      [eapply Hkeep; reflexivity|].
    clear Hkeep. simpl snd. simpl fst.
    assert (Hsame : forall j, present j (written d old db) = present j db)
      by (intros j; apply present_ids, written_ids).
    repeat split; intros; rewrite ?Hsame in *; congruence.
  - rewrite dispatch_delete in *.
    destruct (find (has_id i) db) as [m|]; [|eapply Hkeep; reflexivity].
    clear Hkeep. simpl snd. simpl fst.
    split; [|split; [|split]].
    + intros j Hj. rewrite present_deleted, Hj. discriminate.
    + intros j Hj. rewrite present_deleted, Hj. simpl.
      intros E. apply negb_false_iff, Z.eqb_eq in E. subst j. now split.
    + intros j [[k H] | [k [b H]]]; discriminate.
    + intros j Hj. rewrite present_deleted. simpl in *.
      assert ((j =? i) = false) as -> by (now apply Z.eqb_neq).
      apply andb_true_r.
Qed.

End Proofs.

(** * The statements at work on the sample storage *)



Lemma primary_key_heat_alien : NoDup (map MovieModel.id [heat; alien]).
Proof.
  simpl. constructor; [|constructor; [|constructor]]; simpl.
  - intros [H | []]. discriminate.
  - intros [].
Defined.

Lemma unique_name_heat_alien : NoDup (map MovieModel.name [heat; alien]).
Proof.
  simpl. constructor; [|constructor; [|constructor]]; simpl.
  - intros [H | []]. discriminate.
  - intros [].
Defined.

Lemma put_failure_after_commit_witness :
  status (fst (dispatch (PUT 3 ronin_body) [heat])) = 500 /\
  snd (dispatch (PUT 3 ronin_body) [heat]) = [heat; ronin] /\
  snd (dispatch (PUT 3 ronin_body) [heat]) <> [heat].
Proof.
  refine (put_failure_after_commit (storage := sample_storage)
            3 ronin_body [heat] "abc" supplied_ronin_body non_null_ronin_body _ _
            eq_refl eq_refl);
    intros r [<- | []]; discriminate.
Defined.

Lemma patch_name_conflict_witness :
  (exists r, In r [heat; alien] /\ MovieModel.id r = 1) /\
  json_get "name" [("name", Some "Heat"); ("genre", Some "Drama")] = Some (Some "Heat") /\
  (exists r, In r [heat; alien] /\ MovieModel.name r = Some "Heat") /\
  dispatch (PATCH 1 (Sent [("name", Some "Heat"); ("genre", Some "Drama")]
                          [("name", "Ronin")])) [heat; alien]
  = (Response 409 (Error (Text "Name of the movie already used")), [heat; alien]).
Proof.
  assert (H1 : exists r, In r [heat; alien] /\ MovieModel.id r = 1)
    by (exists heat; split; [simpl; auto | reflexivity]).
  assert (H2 : exists r, In r [heat; alien] /\ MovieModel.name r = Some "Heat")
    by (exists heat; split; [simpl; auto | reflexivity]).
  split; [exact H1|]. split; [reflexivity|]. split; [exact H2|].
  exact (patch_name_conflict 1
           (Sent [("name", Some "Heat"); ("genre", Some "Drama")] [("name", "Ronin")])
           [heat; alien] "Heat" H1 eq_refl H2).
Defined.


Lemma patch_frame_witness :
  status (fst (dispatch (PATCH 1 (Sent [("genre", Some "Drama")] [])) [heat; alien]))
  = 200 /\
  exists old new,
    In old [heat; alien] /\
    new = MovieModel.Build 1 (MovieModel.name old) (MovieModel.imdb_rating old)
            (Some "Drama") (MovieModel.actors old) (MovieModel.director old) /\
    nth_error (snd (dispatch (PATCH 1 (Sent [("genre", Some "Drama")] []))
                      [heat; alien])) 1
    = Some alien.
Proof.
  split; [reflexivity|].
  destruct (patch_frame 1 (Sent [("genre", Some "Drama")] []) [heat; alien] eq_refl)
    as (old & new & f & Hin & _ & _ & _ & _ & _ & _ & _ & Hg & _ & _ & _ & Hrest & _).
  exists old, new.
  split; [exact Hin|]. split; [now apply Hg|].
  apply (Hrest 1%nat alien eq_refl). discriminate.
Defined.

(** The claim C5 as stated fails: a body with genre alone, sent with a
    director in the query string, changes the director as well. *)
Lemma patch_frame_counterexample :
  json (Sent [("genre", Some "Drama")] [("director", "Nobody")])
  = [("genre", Some "Drama")] /\
  status (fst (dispatch (PATCH 1 (Sent [("genre", Some "Drama")]
                                       [("director", "Nobody")])) [heat])) = 200 /\
  map MovieModel.director
    (snd (dispatch (PATCH 1 (Sent [("genre", Some "Drama")]
                                  [("director", "Nobody")])) [heat]))
  = [Some "Nobody"] /\
  map MovieModel.director [heat] = [Some "Michael Mann"].
Proof. repeat split. Qed.




Lemma get_failure_on_stored_row_witness :
  dispatch (GET 3) (serve (create_all (S := sample_storage)) [PUT 3 ronin_body])
  = (internal_error, [ronin]).
Proof.
  exact (proj2 (get_failure_on_stored_row (storage := sample_storage) eq_refl)).
Defined.

Lemma put_failure_makes_present_witness :
  present 3 (create_all (S := sample_storage)) = false /\
  present 3 (snd (dispatch (PUT 3 ronin_body) (create_all (S := sample_storage))))
  = true /\
  status (fst (dispatch (PUT 3 ronin_body) (create_all (S := sample_storage)))) = 500.
Proof.
  exact (put_failure_makes_present (storage := sample_storage) eq_refl).
Defined.





Lemma put_appends_one_row_witness :
  status (fst (dispatch (PUT 2 alien_body) [heat])) = 201 /\
  snd (dispatch (PUT 2 alien_body) [heat]) = [heat; alien].
Proof.
  split; [reflexivity|].
  exact (proj1 (put_appends_one_row 2 alien_body [heat] eq_refl)).
Defined.


Lemma abort_keeps_table_witness :
  400 <= status (fst (dispatch (PATCH 2 (body [("name", "Heat")])) [heat; alien])) < 500
  /\ snd (dispatch (PATCH 2 (body [("name", "Heat")])) [heat; alien]) = [heat; alien].
Proof.
  assert (H : 400 <= status (fst (dispatch (PATCH 2 (body [("name", "Heat")]))
                                    [heat; alien])) < 500)
    by (vm_compute; split; [discriminate | reflexivity]).
  split; [exact H|].
  exact (abort_keeps_table (PATCH 2 (body [("name", "Heat")])) [heat; alien] H).
Defined.

Lemma undeclared_keys_ignored_witness :
  dispatch (PUT 2 (Sent (("year", Some "1979") :: json alien_body) [("page", "2")]))
    [heat]
  = dispatch (PUT 2 alien_body) [heat].
Proof.
  refine (proj1 (undeclared_keys_ignored 2
                   (Sent (("year", Some "1979") :: json alien_body) [("page", "2")])
                   alien_body [heat] _)).
  intros key Hk. simpl in Hk.
  repeat (destruct Hk as [<- | Hk]; [reflexivity|]). contradiction.
Defined.



Lemma put_then_delete_witness :
  status (fst (dispatch (PUT 2 alien_body) [heat])) = 201 /\
  dispatch (DELETE 2) (snd (dispatch (PUT 2 alien_body) [heat]))
  = (Response 200 (Body marshal_defaults), [heat]).
Proof.
  split; [reflexivity|].
  exact (put_then_delete 2 alien_body [heat] eq_refl).
Defined.

Lemma delete_then_put_witness :
  fst (dispatch (PUT 1 heat_body) (snd (dispatch (DELETE 1) [heat; alien])))
  = Response 201 (Body heat_fields).
Proof.
  exact (delete_then_put 1 heat_body [heat; alien] heat unique_name_heat_alien
           (or_introl eq_refl) eq_refl eq_refl).
Defined.

Lemma patch_then_get_witness :
  status (fst (dispatch (PATCH 2 (body [("director", "R. Scott")])) [heat; alien]))
  = 200 /\
  dispatch (GET 2)
    (snd (dispatch (PATCH 2 (body [("director", "R. Scott")])) [heat; alien]))
  = dispatch (PATCH 2 (body [("director", "R. Scott")])) [heat; alien].
Proof.
  split; [reflexivity|].
  exact (patch_then_get 2 (body [("director", "R. Scott")]) [heat; alien] eq_refl).
Defined.

Lemma patch_nothing_truthy_witness :
  dispatch (PATCH 1 (body [("genre", "")])) [heat; alien]
  = (Response 200 (Body heat_fields), [heat; alien]).
Proof.
  assert (Hf : forall key, In key five ->
                           truthy (parsed key (body [("genre", "")])) = false).
  { intros key Hk. simpl in Hk.
    repeat (destruct Hk as [<- | Hk]; [reflexivity|]). contradiction. }
  destruct (patch_nothing_truthy 1 (body [("genre", "")]) [heat; alien]
              primary_key_heat_alien eq_refl Hf)
    as (old & f & Hin & Hi & Hm & Hd).
  destruct Hin as [<- | [<- | []]]; [|discriminate Hi].
  injection Hm as <-. exact Hd.
Defined.

Lemma get_other_id_stable_witness :
  fst (dispatch (GET 2) (snd (dispatch (DELETE 1) [heat; alien])))
  = fst (dispatch (GET 2) [heat; alien]).
Proof.
  apply (get_other_id_stable (DELETE 1) 2 [heat; alien]). discriminate.
Defined.

Lemma row_count_step_witness :
  List.length (snd (dispatch (PUT 2 alien_body) [heat])) = 2%nat /\
  (List.length (snd (dispatch (DELETE 1) [heat; alien])) + 1)%nat = 2%nat.
Proof.
  destruct (row_count_step (PUT 2 alien_body) [heat]) as (Hput & _).
  destruct (row_count_step (DELETE 1) [heat; alien]) as (_ & Hdel & _).
  split; [exact (Hput eq_refl)|].
  apply Hdel; [exact primary_key_heat_alien | eauto | reflexivity].
Defined.

Lemma get_shows_no_null_witness :
  exists n r g a c,
    fst (dispatch (GET 2)
           (serve (create_all (S := sample_storage))
              [PUT 1 heat_body; PUT 2 alien_body]))
    = Response 200 (Body (Fields 2 (Some n) r (Some g) (Some a) (Some c))).
Proof.
  exact (get_shows_no_null (storage := sample_storage)
           [PUT 1 heat_body; PUT 2 alien_body] 2 eq_refl).
Defined.



Lemma presence_transitions_witness :
  ((exists d, PUT 2 alien_body = PUT 2 d) /\
   (status (fst (dispatch (PUT 2 alien_body) [heat])) = 201 \/
    status (fst (dispatch (PUT 2 alien_body) [heat])) = 500))
  /\ (DELETE 1 = DELETE 1 /\ status (fst (dispatch (DELETE 1) [heat; alien])) = 200)
  /\ present 1 (snd (dispatch (PATCH 1 (body [("genre", "Drama")])) [heat; alien]))
     = present 1 [heat; alien].
Proof.
  destruct (presence_transitions (PUT 2 alien_body) [heat]) as (Hup & _).
  destruct (presence_transitions (DELETE 1) [heat; alien]) as (_ & Hdown & _).
  destruct (presence_transitions (PATCH 1 (body [("genre", "Drama")])) [heat; alien])
    as (_ & _ & Hsame & _).
  split; [exact (Hup 2 eq_refl eq_refl)|].
  split; [exact (Hdown 1 eq_refl eq_refl)|].
  apply Hsame. right. eauto.
Defined.
